(** * ptrwinchmotor: a motor component that drives one GPIO pin of a board

    A shallow embedding of [winchmotor.go].  Go values that may be [nil]
    (interfaces, errors) are options, a Go function with an [error] result
    returns [option error], and a method call on a nil interface or through
    a dead pointer is the outcome [Panic].  The board, its pins and the
    logger are collaborators of the host runtime: what the component asks
    of them is recorded as a trace of events. *)

From Stdlib Require Import ZArith String List.
From Stdlib.Floats Require Import SpecFloat.
From stdpp Require Import base option list strings gmap.

Local Open Scope string_scope.

(** ** float64 *)

(** A Go [float64] as an IEEE 754 binary64 datum: 53 bits of precision,
    exponents below 1024. *)
Definition float64 := spec_float.

Definition is_float64 (f : float64) : Prop := valid_binary 53 1024 f = true.

(** Go's [==] on float64. *)
Definition float64_eqb (x y : float64) : bool := SFeqb x y.

(** The constant [1]: mantissa 2^52, exponent -52. *)
Definition float64_one : float64 := S754_finite false 4503599627370496 (-52).
Definition float64_zero : float64 := S754_zero false.
Definition float64_neg_one : float64 := S754_finite true 4503599627370496 (-52).
Definition float64_half : float64 := S754_finite false 4503599627370496 (-53).
Definition float64_neg_half : float64 := S754_finite true 4503599627370496 (-53).
(** The binary64 nearest to 0.999. *)
Definition float64_0_999 : float64 := S754_finite false 8998192055486251 (-53).

(** ** Errors *)

(** [errors.New] makes an [errorString]; [errors.Wrapf] puts a message in
    front of a cause. *)
Inductive error : Type :=
| errorString (msg : string)
| withMessage (cause : error) (msg : string).

(** [err.Error()] *)
Fixpoint Error (e : error) : string :=
  match e with
  | errorString msg => msg
  | withMessage cause msg => msg ++ ": " ++ Error cause
  end.

Definition errors_New (msg : string) : error := errorString msg.

Definition errUnimplemented : error := errors_New "unimplemented".

Definition propellerPinName : string := "29".
Definition turningPinNames : list string := ["40"; "38"; "36"; "32"].
Definition wenchPinNames : list string := ["31"; "33"; "35"; "37"].

(** ** Collaborators *)

(** [board.GPIOPin]: [Set] answers with an error or with nil. *)
Record GPIOPin : Type := {
  Set_ : bool -> option error
}.

(** [board.Board]: a named device whose pins are found by name. *)
Record Board : Type := {
  board_name : string;
  GPIOPinByName : string -> error + GPIOPin
}.

(** [logging.Logger], known by its name. *)
Record Logger : Type := { logger_name : string }.

Inductive Context : Type := Background | TODO.

(** The values of an [extra map[string]interface{}]. *)
Inductive Any : Type :=
| AnyNil
| AnyBool (b : bool)
| AnyFloat (f : float64)
| AnyString (s : string).

Abbreviation Extra := (gmap string Any).

(** [Config] of the model: the [board-1] attribute. *)
Record Config : Type := { Board_ : string }.

(** [resource.Config]: the resource name and what
    [resource.NativeConfig[*Config]] makes of the converted attributes. *)
Record resource_Config : Type := {
  ResourceName : string;
  NativeConfig : error + Config
}.

(** [resource.Dependencies] as [board.FromDependencies] reads it: the board
    under a name, or the cause why there is none. *)
Definition Dependencies := string -> error + Board.

(** [board.FromDependencies(deps, name)]: on failure the board is the zero
    value of the interface, nil. *)
Definition FromDependencies (deps : Dependencies) (name : string)
  : option Board * option error :=
  match deps name with
  | inr b => (Some b, None)
  | inl err => (None, Some err)
  end.

(** ** The component *)

Record winchmotor : Type := {
  Named : string;
  board : option Board;
  logger : option Logger
}.

Record pinValue : Type := { name : string; high : bool }.

(** What reaches the collaborators, in order of occurrence. *)
Inductive Event : Type :=
| EvGPIOPinByName (b : string) (pin : string)
| EvSet (b : string) (pin : string) (level : bool)
| EvLogError (l : string) (e : error).

(** A pointer to a [winchmotor] is an index into the heap. *)
Definition ptr := nat.

Record World : Type := {
  heap : list winchmotor;
  trace : list Event
}.

Inductive outcome (A : Type) : Type :=
| Ret (a : A)
| Panic.
Arguments Ret {A} a.
Arguments Panic {A}.

(** ** A state monad with panics *)

Definition M (A : Type) : Type := World -> outcome A * World.

Definition ret {A} (a : A) : M A := fun w => (Ret a, w).

Definition bind {A B} (m : M A) (k : A -> M B) : M B :=
  fun w =>
    match m w with
    | (Ret a, w') => k a w'
    | (Panic, w') => (Panic, w')
    end.

#[global] Instance M_ret : MRet M := @ret.
#[global] Instance M_bind : MBind M := fun A B k m => bind m k.

Definition panic {A} : M A := fun w => (Panic, w).

(** The world once [evs] have happened. *)
Definition after (w : World) (evs : list Event) : World :=
  {| heap := heap w; trace := trace w ++ evs |}.

Definition emit (ev : Event) : M unit := fun w => (Ret tt, after w [ev]).

(** [*wm] *)
Definition load (wm : ptr) : M winchmotor :=
  fun w =>
    match heap w !! wm with
    | Some c => (Ret c, w)
    | None => (Panic, w)
    end.

(** [*wm = c] *)
Definition store (wm : ptr) (c : winchmotor) : M unit :=
  fun w =>
    match heap w !! wm with
    | Some _ => (Ret tt, {| heap := <[wm := c]> (heap w); trace := trace w |})
    | None => (Panic, w)
    end.

(** [&winchmotor{...}] *)
Definition alloc (c : winchmotor) : M ptr :=
  fun w => (Ret (length (heap w)), {| heap := heap w ++ [c]; trace := trace w |}).

(** [wm.board = b] *)
Definition set_board (wm : ptr) (b : option Board) : M unit :=
  c ← load wm;
  store wm {| Named := Named c; board := b; logger := logger c |}.

(** [l.Error(err)] *)
Definition Logger_Error (l : option Logger) (err : error) : M unit :=
  match l with
  | Some lg => emit (EvLogError (logger_name lg) err)
  | None => panic
  end.

(** The pin a lookup hands back: which pin of which board, and how it
    answers. *)
Record PinHandle : Type := {
  pin_board : string;
  pin_name : string;
  pin_impl : GPIOPin
}.

(** [b.GPIOPinByName(name)] *)
Definition call_GPIOPinByName (b : option Board) (pin : string)
  : M (error + PinHandle) :=
  match b with
  | Some bd =>
      emit (EvGPIOPinByName (board_name bd) pin);;
      ret (match GPIOPinByName bd pin with
           | inl err => inl err
           | inr p => inr {| pin_board := board_name bd; pin_name := pin;
                             pin_impl := p |}
           end)
  | None => panic
  end.

(** [pin.Set(ctx, high, nil)] *)
Definition call_Set (p : PinHandle) (level : bool) : M (option error) :=
  emit (EvSet (pin_board p) (pin_name p) level);;
  ret (Set_ (pin_impl p) level).

(** ** Operations *)

Definition newWinchMotor (ctx : Context) (deps : Dependencies)
  (conf : resource_Config) (l : option Logger) : M (ptr * option error) :=
  wm ← alloc {| Named := ResourceName conf; board := None; logger := l |};
  ret (wm, None).

Definition setPin (b : option Board) (l : option Logger) (pv : pinValue)
  : M (option error) :=
  r ← call_GPIOPinByName b (name pv);
  match r with
  | inl err => Logger_Error l err;; ret (Some err)
  | inr pinReturnValue =>
      err ← call_Set pinReturnValue (high pv);
      match err with
      | Some e => Logger_Error l e;; ret (Some e)
      | None => ret None
      end
  end.

Definition SetPower (wm : ptr) (ctx : Context) (powerPct : float64)
  (extra : Extra) : M (option error) :=
  c ← load wm;
  err ← setPin (board c) None
          {| name := propellerPinName;
             high := float64_eqb powerPct float64_one |};
  ret err.

(** [motor.Properties] *)
Record motor_Properties : Type := { PositionReporting : bool }.

Definition GoFor (wm : ptr) (ctx : Context) (rpm revolutions : float64)
  (extra : Extra) : M (option error) :=
  ret (Some errUnimplemented).

Definition GoTo (wm : ptr) (ctx : Context) (rpm positionRevolutions : float64)
  (extra : Extra) : M (option error) :=
  ret (Some errUnimplemented).

Definition SetRPM (wm : ptr) (ctx : Context) (rpm : float64) (extra : Extra)
  : M (option error) :=
  ret (Some errUnimplemented).

Definition ResetZeroPosition (wm : ptr) (ctx : Context) (offset : float64)
  (extra : Extra) : M (option error) :=
  ret (Some errUnimplemented).

Definition Position (wm : ptr) (ctx : Context) (extra : Extra)
  : M (float64 * option error) :=
  ret (float64_zero, Some errUnimplemented).

Definition IsMoving (wm : ptr) (ctx : Context) : M (bool * option error) :=
  ret (false, Some errUnimplemented).

Definition IsPowered (wm : ptr) (ctx : Context) (extra : Extra)
  : M (bool * float64 * option error) :=
  ret (false, float64_zero, Some errUnimplemented).

Definition Reconfigure (wm : ptr) (ctx : Context) (deps : Dependencies)
  (conf : resource_Config) : M (option error) :=
  set_board wm None;;
  match NativeConfig conf with
  | inl err => ret (Some err)
  | inr baseConfig =>
      let '(b, err) := FromDependencies deps (Board_ baseConfig) in
      set_board wm b;;
      match err with
      | Some e =>
          ret (Some (withMessage e
                 ("unable to get board " ++ Board_ baseConfig
                  ++ " for mybase")))
      | None => ret None
      end
  end.

Definition Validate (cfg : Config) (path : string)
  : list string * option error :=
  ([""], None).

Definition Properties (wm : ptr) (ctx : Context) (extra : Extra)
  : M (motor_Properties * option error) :=
  ret ({| PositionReporting := false |}, Some errUnimplemented).

Definition Close (wm : ptr) (ctx : Context) : M (option error) :=
  ret (Some errUnimplemented).

Definition Stop (wm : ptr) (ctx : Context) (extra : Extra) : M (option error) :=
  ret (Some errUnimplemented).

(** ** Vocabulary of the statements *)

(** The component [c] with its board replaced. *)
Definition rebind (c : winchmotor) (b : option Board) : winchmotor :=
  {| Named := Named c; board := b; logger := logger c |}.

(** The world with the object at [wm] replaced. *)
Definition update (w : World) (wm : ptr) (c : winchmotor) : World :=
  {| heap := <[wm := c]> (heap w); trace := trace w |}.

(** The board field of the object at [wm], if the pointer is live. *)
Definition board_of (w : World) (wm : ptr) : option (option Board) :=
  board <$> heap w !! wm.

(** A pin operation on [b] for [pv] fails with [err] after the calls
    [evs]: the lookup fails, or the lookup succeeds and the write fails. *)
Definition pin_failure (b : Board) (pv : pinValue) (err : error)
  (evs : list Event) : Prop :=
  (GPIOPinByName b (name pv) = inl err /\
   evs = [EvGPIOPinByName (board_name b) (name pv)]) \/
  (exists p, GPIOPinByName b (name pv) = inr p /\
             Set_ p (high pv) = Some err /\
             evs = [EvGPIOPinByName (board_name b) (name pv);
                    EvSet (board_name b) (name pv) (high pv)]).

(** The message of [e] contains the operation name [op]. *)
Definition mentions (op : string) (e : error) : bool :=
  match index 0 op (Error e) with
  | Some _ => true
  | None => false
  end.

(** A call of [Set] on a pin. *)
Definition is_write (ev : Event) : bool :=
  match ev with
  | EvSet _ _ _ => true
  | _ => false
  end.

(** A call of [Error] on a logger. *)
Definition is_log (ev : Event) : bool :=
  match ev with
  | EvLogError _ _ => true
  | _ => false
  end.

(** The float is positive and finite and its value, mantissa times two to
    the exponent, is the number one. *)
Definition value_is_one (p : float64) : Prop :=
  match p with
  | S754_finite false m e => (e <= 0)%Z /\ Z.pos m = (2 ^ (- e))%Z
  | _ => False
  end.

(** ** What a host does with the component *)

(** Construct a component, configure it, power it. *)
Definition start_and_power (ctx : Context) (deps : Dependencies)
  (conf : resource_Config) (l : option Logger) (powerPct : float64)
  (extra : Extra) : M (option error) :=
  '(wm, _) ← newWinchMotor ctx deps conf l;
  Reconfigure wm ctx deps conf;;
  SetPower wm ctx powerPct extra.

(** Construct a component and power it at once. *)
Definition construct_and_power (ctx : Context) (deps : Dependencies)
  (conf : resource_Config) (l : option Logger) (powerPct : float64)
  (extra : Extra) : M (option error) :=
  '(wm, _) ← newWinchMotor ctx deps conf l;
  SetPower wm ctx powerPct extra.

(** Construct two components and configure the first. *)
Definition two_components (ctx : Context) (deps : Dependencies)
  (conf1 conf2 : resource_Config) (l1 l2 : option Logger)
  : M (ptr * ptr * option error) :=
  '(wm1, _) ← newWinchMotor ctx deps conf1 l1;
  '(wm2, _) ← newWinchMotor ctx deps conf2 l2;
  err ← Reconfigure wm1 ctx deps conf1;
  mret (wm1, wm2, err).

(** ** Test doubles *)

Module Doubles.

Definition pin_ok : GPIOPin := {| Set_ := fun _ => None |}.

Definition pin_broken : GPIOPin :=
  {| Set_ := fun _ => Some (errorString "write failed") |}.

(** A board with the single pin 29. *)
Definition b1 : Board :=
  {| board_name := "b1";
     GPIOPinByName := fun n =>
       if String.eqb n "29" then inr pin_ok
       else inl (errorString "pin not found") |}.

(** A board without pins. *)
Definition bare : Board :=
  {| board_name := "bare";
     GPIOPinByName := fun _ => inl (errorString "pin not found") |}.

(** A board whose pin 29 refuses every write. *)
Definition stuck : Board :=
  {| board_name := "stuck";
     GPIOPinByName := fun n =>
       if String.eqb n "29" then inr pin_broken
       else inl (errorString "pin not found") |}.

Definition deps1 : Dependencies := fun n =>
  if String.eqb n "b1" then inr b1
  else inl (errorString "resource not found").

Definition sink : Logger := {| logger_name := "winch" |}.

Definition conf_for (bd : string) : resource_Config :=
  {| ResourceName := "winch"; NativeConfig := inr {| Board_ := bd |} |}.

Definition conf_bad : resource_Config :=
  {| ResourceName := "winch";
     NativeConfig := inl (errorString "unexpected config type") |}.

Definition component (b : option Board) : winchmotor :=
  {| Named := "winch"; board := b; logger := Some sink |}.

Definition world_of (b : option Board) : World :=
  {| heap := [component b]; trace := [] |}.

Definition empty_world : World := {| heap := []; trace := [] |}.

(** Construct, bind to b1, full power, no power, rebind to a board that
    is not there, full power again. *)
Definition scenario : M (list (option error)) :=
  '(wm, e0) ← newWinchMotor Background deps1 (conf_for "b1") (Some sink);
  e1 ← Reconfigure wm Background deps1 (conf_for "b1");
  e2 ← SetPower wm Background float64_one ∅;
  e3 ← SetPower wm Background float64_zero ∅;
  e4 ← Reconfigure wm Background deps1 (conf_for "missing");
  e5 ← SetPower wm Background float64_one ∅;
  mret [e0; e1; e2; e3; e4; e5].

End Doubles.

(** ** Reasoning about the monad *)

Lemma bind_Ret {A B} (m : M A) (k : A -> M B) w a w' :
  m w = (Ret a, w') -> (m ≫= k) w = k a w'.
Proof. intros E. unfold mbind, M_bind, bind. by rewrite E. Qed.

Lemma bind_Panic {A B} (m : M A) (k : A -> M B) w w' :
  m w = (Panic, w') -> (m ≫= k) w = (Panic, w').
Proof. intros E. unfold mbind, M_bind, bind. by rewrite E. Qed.

Lemma load_live wm c w : heap w !! wm = Some c -> load wm w = (Ret c, w).
Proof. intros E. unfold load. by rewrite E. Qed.

Lemma store_live wm c c' w :
  heap w !! wm = Some c ->
  store wm c' w = (Ret tt, {| heap := <[wm := c']> (heap w); trace := trace w |}).
Proof. intros E. unfold store. by rewrite E. Qed.

Lemma set_board_live wm c b w :
  heap w !! wm = Some c ->
  set_board wm b w =
    (Ret tt, {| heap := <[wm := {| Named := Named c; board := b;
                                   logger := logger c |}]> (heap w);
                trace := trace w |}).
Proof.
  intros E. unfold set_board.
  rewrite (bind_Ret _ _ _ _ _ (load_live _ _ _ E)).
  by apply store_live with c.
Qed.

(** ** float64 comparison with 1 *)

Lemma float64_eqb_one (p : float64) :
  float64_eqb p float64_one = true <-> p = float64_one.
Proof.
  split.
  - unfold float64_eqb, SFeqb, SFcompare, float64_one.
    destruct p as [s|s| |s m e]; try destruct s; try discriminate.
    destruct (Z.compare_spec e (-52)) as [->| |]; try discriminate.
    destruct (Pos.compare_cont Eq m 4503599627370496) eqn:E;
      try discriminate.
    apply Pos.compare_eq in E. intros _. by rewrite E.
  - intros ->. vm_compute. reflexivity.
Qed.

Lemma float64_one_valid : is_float64 float64_one.
Proof. vm_compute. reflexivity. Qed.

(** The sample powers of the specification are binary64 data other
    than 1. *)
Lemma sample_powers_low :
  Forall (fun p => is_float64 p /\ float64_eqb p float64_one = false)
    [float64_neg_one; float64_zero; float64_half; float64_0_999;
     float64_neg_half].
Proof. repeat (constructor; [split; vm_compute; reflexivity|]). constructor. Qed.

(** ** The pin-write primitive *)

Lemma after_after w evs evs' : after (after w evs) evs' = after w (evs ++ evs').
Proof. unfold after. simpl. by rewrite <- app_assoc. Qed.

Ltac run_monad :=
  unfold setPin, call_GPIOPinByName, call_Set, Logger_Error, emit, panic,
    mbind, M_bind, bind, mret, M_ret, ret; simpl.

(** What [setPin] does on a board that is there, case by case. *)
Lemma setPin_bound b l pv w :
  setPin (Some b) l pv w =
    let lookup := EvGPIOPinByName (board_name b) (name pv) in
    let write := EvSet (board_name b) (name pv) (high pv) in
    match GPIOPinByName b (name pv) with
    | inl err =>
        match l with
        | Some lg =>
            (Ret (Some err), after w [lookup; EvLogError (logger_name lg) err])
        | None => (Panic, after w [lookup])
        end
    | inr p =>
        match Set_ p (high pv) with
        | None => (Ret None, after w [lookup; write])
        | Some e =>
            match l with
            | Some lg =>
                (Ret (Some e),
                 after w [lookup; write; EvLogError (logger_name lg) e])
            | None => (Panic, after w [lookup; write])
            end
        end
    end.
Proof.
  run_monad.
  destruct (GPIOPinByName b (name pv)) as [err|p]; simpl.
  - destruct l; simpl; by rewrite ?after_after.
  - destruct (Set_ p (high pv)); simpl; [destruct l; simpl|];
      by rewrite ?after_after.
Qed.

Lemma setPin_nil_board l pv w : setPin None l pv w = (Panic, w).
Proof. reflexivity. Qed.

Lemma SetPower_live wm c ctx powerPct extra w :
  heap w !! wm = Some c ->
  SetPower wm ctx powerPct extra w =
    setPin (board c) None
      {| name := propellerPinName;
         high := float64_eqb powerPct float64_one |} w.
Proof.
  intros E. unfold SetPower.
  rewrite (bind_Ret _ _ _ _ _ (load_live _ _ _ E)).
  unfold mbind, M_bind, bind, mret, M_ret, ret.
  by destruct (setPin _ _ _ w) as [[?|] ?].
Qed.

(** ** SetPower *)

(** C1: on a bound component whose board has the propeller pin, SetPower
    looks the pin up once and writes it once, with the level
    [powerPct == 1]; that level is high exactly when the power is the
    float 1, so every other power drives the pin low. *)
Theorem SetPower_high_iff_power_one wm c b p ctx powerPct extra w :
  heap w !! wm = Some c ->
  board c = Some b ->
  GPIOPinByName b propellerPinName = inr p ->
  SetPower wm ctx powerPct extra w =
    (match Set_ p (float64_eqb powerPct float64_one) with
     | None => Ret None
     | Some _ => Panic
     end,
     after w [EvGPIOPinByName (board_name b) propellerPinName;
              EvSet (board_name b) propellerPinName
                (float64_eqb powerPct float64_one)])
  /\ (float64_eqb powerPct float64_one = true <-> powerPct = float64_one).
Proof.
  intros Hwm Hb Hp. split; [|apply float64_eqb_one].
  rewrite (SetPower_live _ _ _ _ _ _ Hwm), Hb, setPin_bound. simpl.
  rewrite Hp. by destruct (Set_ p _).
Qed.

Lemma SetPower_high_iff_power_one_witness :
  heap (Doubles.world_of (Some Doubles.b1)) !! 0 =
    Some (Doubles.component (Some Doubles.b1)) /\
  board (Doubles.component (Some Doubles.b1)) = Some Doubles.b1 /\
  GPIOPinByName Doubles.b1 propellerPinName = inr Doubles.pin_ok /\
  SetPower 0 Background float64_half ∅ (Doubles.world_of (Some Doubles.b1)) =
    (Ret None,
     after (Doubles.world_of (Some Doubles.b1))
       [EvGPIOPinByName "b1" "29"; EvSet "b1" "29" false]).
Proof.
  split; [reflexivity|]. split; [reflexivity|]. split; [reflexivity|].
  apply (proj1 (SetPower_high_iff_power_one 0
                  (Doubles.component (Some Doubles.b1)) Doubles.b1
                  Doubles.pin_ok Background float64_half ∅
                  (Doubles.world_of (Some Doubles.b1))
                  eq_refl eq_refl eq_refl)).
Defined.

(** C2: on an unbound component SetPower touches no pin, but it does not
    return an error either: the lookup on the nil board panics. *)
Theorem SetPower_unbound_panics wm c ctx powerPct extra w :
  heap w !! wm = Some c ->
  board c = None ->
  SetPower wm ctx powerPct extra w = (Panic, w).
Proof.
  intros Hwm Hb.
  by rewrite (SetPower_live _ _ _ _ _ _ Hwm), Hb, setPin_nil_board.
Qed.

Lemma SetPower_unbound_panics_witness :
  heap (Doubles.world_of None) !! 0 = Some (Doubles.component None) /\
  board (Doubles.component None) = None /\
  SetPower 0 Background float64_one ∅ (Doubles.world_of None) =
    (Panic, Doubles.world_of None).
Proof.
  split; [reflexivity|]. split; [reflexivity|].
  apply (SetPower_unbound_panics 0 (Doubles.component None) Background
           float64_one ∅ (Doubles.world_of None) eq_refl eq_refl).
Defined.

(** When the propeller pin is missing from the bound board, SetPower
    returns no error and nothing is logged. *)
Lemma SetPower_pin_failure_not_reported :
  GPIOPinByName Doubles.bare propellerPinName =
    inl (errorString "pin not found") /\
  ~ (exists e w',
       SetPower 0 Background float64_one ∅
         (Doubles.world_of (Some Doubles.bare)) = (Ret (Some e), w') /\
       exists l, EvLogError l e ∈ trace w').
Proof.
  split; [reflexivity|].
  intros (e & w' & H & _). vm_compute in H. discriminate H.
Qed.

(** C4: the code does not do what the claim says.  SetPower hands setPin a
    nil logger, so when the lookup or the write of the propeller pin fails
    on a bound component the call of the logger panics: the error is
    neither logged nor returned, and the trace holds only the lookup and,
    if it was reached, the write. *)
Theorem SetPower_pin_failure_panics wm c b err evs ctx powerPct extra w :
  heap w !! wm = Some c ->
  board c = Some b ->
  pin_failure b
    {| name := propellerPinName;
       high := float64_eqb powerPct float64_one |} err evs ->
  SetPower wm ctx powerPct extra w = (Panic, after w evs) /\
  filter is_log evs = [].
Proof.
  intros Hwm Hb Hf.
  rewrite (SetPower_live _ _ _ _ _ _ Hwm), Hb, setPin_bound.
  destruct Hf as [[Hl ->]|(p & Hl & Hs & ->)]; simpl in *; rewrite Hl.
  - done.
  - by rewrite Hs.
Qed.

Lemma SetPower_pin_failure_panics_witness :
  heap (Doubles.world_of (Some Doubles.stuck)) !! 0 =
    Some (Doubles.component (Some Doubles.stuck)) /\
  board (Doubles.component (Some Doubles.stuck)) = Some Doubles.stuck /\
  pin_failure Doubles.stuck
    {| name := propellerPinName;
       high := float64_eqb float64_one float64_one |}
    (errorString "write failed")
    [EvGPIOPinByName "stuck" "29"; EvSet "stuck" "29" true] /\
  SetPower 0 Background float64_one ∅
    (Doubles.world_of (Some Doubles.stuck)) =
    (Panic, after (Doubles.world_of (Some Doubles.stuck))
              [EvGPIOPinByName "stuck" "29"; EvSet "stuck" "29" true]) /\
  filter is_log [EvGPIOPinByName "stuck" "29"; EvSet "stuck" "29" true] = [].
Proof.
  assert (H : pin_failure Doubles.stuck
                {| name := propellerPinName;
                   high := float64_eqb float64_one float64_one |}
                (errorString "write failed")
                [EvGPIOPinByName "stuck" "29"; EvSet "stuck" "29" true]).
  { right. exists Doubles.pin_broken.
    split; [reflexivity|]. split; reflexivity. }
  split; [reflexivity|]. split; [reflexivity|]. split; [exact H|].
  apply (SetPower_pin_failure_panics 0
           (Doubles.component (Some Doubles.stuck)) Doubles.stuck
           (errorString "write failed")
           [EvGPIOPinByName "stuck" "29"; EvSet "stuck" "29" true]
           Background float64_one ∅
           (Doubles.world_of (Some Doubles.stuck)) eq_refl eq_refl H).
Defined.

(** The primitive on its own, with a logger that is there: when the lookup
    or the write fails, the error is logged, as the last thing that
    happens, and then returned as it is; the pin is looked up once and
    written at most once. *)
Theorem setPin_logs_then_returns b lg pv err evs w :
  pin_failure b pv err evs ->
  setPin (Some b) (Some lg) pv w =
    (Ret (Some err), after w (evs ++ [EvLogError (logger_name lg) err])).
Proof.
  intros [[Hl ->]|(p & Hl & Hs & ->)]; rewrite setPin_bound; simpl;
    rewrite Hl; [done|]. by rewrite Hs.
Qed.

Lemma setPin_logs_then_returns_witness :
  pin_failure Doubles.stuck {| name := "29"; high := true |}
    (errorString "write failed")
    [EvGPIOPinByName "stuck" "29"; EvSet "stuck" "29" true] /\
  setPin (Some Doubles.stuck) (Some Doubles.sink)
    {| name := "29"; high := true |} (Doubles.world_of (Some Doubles.stuck)) =
    (Ret (Some (errorString "write failed")),
     after (Doubles.world_of (Some Doubles.stuck))
       [EvGPIOPinByName "stuck" "29"; EvSet "stuck" "29" true;
        EvLogError "winch" (errorString "write failed")]).
Proof.
  assert (H : pin_failure Doubles.stuck {| name := "29"; high := true |}
                (errorString "write failed")
                [EvGPIOPinByName "stuck" "29"; EvSet "stuck" "29" true]).
  { right. exists Doubles.pin_broken. repeat split. }
  split; [exact H|].
  apply (setPin_logs_then_returns Doubles.stuck Doubles.sink _ _ _
           (Doubles.world_of (Some Doubles.stuck)) H).
Defined.

(** ** The unsupported operations *)

(** C5, as stated, fails: the error GoFor returns does not name GoFor. *)
Lemma GoFor_error_does_not_name_operation :
  ~ (exists e w',
       GoFor 0 Background float64_zero float64_zero ∅ Doubles.empty_world =
         (Ret (Some e), w') /\
       mentions "GoFor" e = true).
Proof.
  intros (e & w' & H & Hm). injection H as <- _. vm_compute in Hm.
  discriminate Hm.
Qed.

(** C5, amended: each of the nine unsupported operations returns, for every
    input, the one shared error errUnimplemented (with zero values for its
    other results) and leaves the heap and the trace as they were. *)
Theorem stubs_return_errUnimplemented wm ctx (x y : float64) extra w :
  GoFor wm ctx x y extra w = (Ret (Some errUnimplemented), w) /\
  GoTo wm ctx x y extra w = (Ret (Some errUnimplemented), w) /\
  SetRPM wm ctx x extra w = (Ret (Some errUnimplemented), w) /\
  ResetZeroPosition wm ctx x extra w = (Ret (Some errUnimplemented), w) /\
  Position wm ctx extra w = (Ret (float64_zero, Some errUnimplemented), w) /\
  IsMoving wm ctx w = (Ret (false, Some errUnimplemented), w) /\
  IsPowered wm ctx extra w =
    (Ret (false, float64_zero, Some errUnimplemented), w) /\
  Properties wm ctx extra w =
    (Ret ({| PositionReporting := false |}, Some errUnimplemented), w) /\
  Stop wm ctx extra w = (Ret (Some errUnimplemented), w).
Proof. repeat split. Qed.

(** C7: Close returns errUnimplemented in every state and changes nothing:
    no pin is written and the bound board stays bound. *)
Theorem Close_unimplemented wm ctx w :
  Close wm ctx w = (Ret (Some errUnimplemented), w).
Proof. reflexivity. Qed.

(** ** Construction *)

(** C9: construction never fails; it allocates a component with the
    resource name and the logger it was given and no board, and touches
    neither the other objects nor any collaborator. *)
Theorem newWinchMotor_unbound ctx deps conf l w :
  newWinchMotor ctx deps conf l w =
    (Ret (length (heap w), None),
     {| heap := heap w ++
                [{| Named := ResourceName conf; board := None; logger := l |}];
        trace := trace w |})
  /\ (heap w ++ [{| Named := ResourceName conf; board := None;
                    logger := l |}])%list !! length (heap w) =
       Some {| Named := ResourceName conf; board := None; logger := l |}.
Proof. split; [reflexivity|]. apply list_lookup_middle. reflexivity. Qed.

(** ** Reconfigure *)

Lemma update_lookup w wm c c' :
  heap w !! wm = Some c -> heap (update w wm c') !! wm = Some c'.
Proof. intros E. simpl. apply list_lookup_insert_eq. by eapply lookup_lt_Some. Qed.

Lemma update_update w wm c c' :
  update (update w wm c) wm c' = update w wm c'.
Proof. unfold update. simpl. by rewrite list_insert_insert_eq. Qed.

(** What [Reconfigure] does through a live pointer, case by case. *)
Lemma Reconfigure_live wm c ctx deps conf w :
  heap w !! wm = Some c ->
  Reconfigure wm ctx deps conf w =
    match NativeConfig conf with
    | inl err => (Ret (Some err), update w wm (rebind c None))
    | inr cfg =>
        match deps (Board_ cfg) with
        | inr b => (Ret None, update w wm (rebind c (Some b)))
        | inl e =>
            (Ret (Some (withMessage e
                    ("unable to get board " ++ Board_ cfg ++ " for mybase"))),
             update w wm (rebind c None))
        end
    end.
Proof.
  intros E. unfold Reconfigure.
  rewrite (bind_Ret _ _ _ _ _ (set_board_live _ _ None _ E)).
  fold (rebind c None). fold (update w wm (rebind c None)).
  destruct (NativeConfig conf) as [err|cfg]; [reflexivity|].
  unfold FromDependencies.
  pose proof (update_lookup w wm c (rebind c None) E) as E'.
  destruct (deps (Board_ cfg)) as [e|b];
    rewrite (bind_Ret _ _ _ _ _ (set_board_live _ _ _ _ E')); simpl;
    unfold mret, M_ret, ret; f_equal;
    rewrite <- (update_update w wm (rebind c None)); reflexivity.
Qed.

Lemma board_of_update w wm c c' :
  heap w !! wm = Some c -> board_of (update w wm c') wm = Some (board c').
Proof. intros E. unfold board_of. by rewrite (update_lookup _ _ _ _ E). Qed.

(** C3: when the board named by the configuration cannot be resolved,
    Reconfigure returns the cause wrapped in a message that quotes the
    board name, and the component holds no board afterwards, whatever it
    held before; nothing else changes. *)
Theorem Reconfigure_resolution_failure wm c ctx deps conf cfg cause w :
  heap w !! wm = Some c ->
  NativeConfig conf = inr cfg ->
  deps (Board_ cfg) = inl cause ->
  Reconfigure wm ctx deps conf w =
    (Ret (Some (withMessage cause
            ("unable to get board " ++ Board_ cfg ++ " for mybase"))),
     update w wm (rebind c None))
  /\ board_of (update w wm (rebind c None)) wm = Some None.
Proof.
  intros E Hc Hd. split; [|by apply board_of_update with c].
  by rewrite (Reconfigure_live _ _ _ _ _ _ E), Hc, Hd.
Qed.

Lemma Reconfigure_resolution_failure_witness :
  heap (Doubles.world_of (Some Doubles.b1)) !! 0 =
    Some (Doubles.component (Some Doubles.b1)) /\
  NativeConfig (Doubles.conf_for "missing") = inr {| Board_ := "missing" |} /\
  Doubles.deps1 "missing" = inl (errorString "resource not found") /\
  Reconfigure 0 Background Doubles.deps1 (Doubles.conf_for "missing")
    (Doubles.world_of (Some Doubles.b1)) =
    (Ret (Some (withMessage (errorString "resource not found")
            "unable to get board missing for mybase")),
     Doubles.world_of None)
  /\ board_of (Doubles.world_of None) 0 = Some None.
Proof.
  split; [reflexivity|]. split; [reflexivity|]. split; [reflexivity|].
  apply (Reconfigure_resolution_failure 0
           (Doubles.component (Some Doubles.b1)) Background Doubles.deps1
           (Doubles.conf_for "missing") {| Board_ := "missing" |}
           (errorString "resource not found")
           (Doubles.world_of (Some Doubles.b1)) eq_refl eq_refl eq_refl).
Defined.

(** C6: when the board named by the configuration resolves, Reconfigure
    returns nil and the component holds the resolved board; the name, the
    logger, the other objects and the trace (so every pin) are as before. *)
Theorem Reconfigure_success wm c ctx deps conf cfg b w :
  heap w !! wm = Some c ->
  NativeConfig conf = inr cfg ->
  deps (Board_ cfg) = inr b ->
  Reconfigure wm ctx deps conf w = (Ret None, update w wm (rebind c (Some b)))
  /\ board_of (update w wm (rebind c (Some b))) wm = Some (Some b)
  /\ trace (update w wm (rebind c (Some b))) = trace w.
Proof.
  intros E Hc Hd. split; [|split; [by apply board_of_update with c|done]].
  by rewrite (Reconfigure_live _ _ _ _ _ _ E), Hc, Hd.
Qed.

Lemma Reconfigure_success_witness :
  heap (Doubles.world_of None) !! 0 = Some (Doubles.component None) /\
  NativeConfig (Doubles.conf_for "b1") = inr {| Board_ := "b1" |} /\
  Doubles.deps1 "b1" = inr Doubles.b1 /\
  Reconfigure 0 Background Doubles.deps1 (Doubles.conf_for "b1")
    (Doubles.world_of None) = (Ret None, Doubles.world_of (Some Doubles.b1))
  /\ board_of (Doubles.world_of (Some Doubles.b1)) 0 = Some (Some Doubles.b1)
  /\ trace (Doubles.world_of (Some Doubles.b1)) = [].
Proof.
  split; [reflexivity|]. split; [reflexivity|]. split; [reflexivity|].
  apply (Reconfigure_success 0 (Doubles.component None) Background
           Doubles.deps1 (Doubles.conf_for "b1") {| Board_ := "b1" |}
           Doubles.b1 (Doubles.world_of None) eq_refl eq_refl eq_refl).
Defined.

(** C8: through a live pointer Reconfigure always returns, and the board
    the component holds afterwards is the freshly resolved one when nil is
    returned and nil when an error is returned, be it from the conversion
    of the configuration or from the resolution; the trace is unchanged. *)
Theorem Reconfigure_board_fresh_or_nil wm c ctx deps conf w :
  heap w !! wm = Some c ->
  exists r b,
    Reconfigure wm ctx deps conf w = (Ret r, update w wm (rebind c b)) /\
    board_of (update w wm (rebind c b)) wm = Some b /\
    ((r = None /\
      exists cfg bd, NativeConfig conf = inr cfg /\
                     deps (Board_ cfg) = inr bd /\ b = Some bd)
     \/ (is_Some r /\ b = None)).
Proof.
  intros E. rewrite (Reconfigure_live _ _ _ _ _ _ E).
  destruct (NativeConfig conf) as [err|cfg] eqn:Hc.
  - exists (Some err), None.
    split; [done|]. split; [by apply board_of_update with c|]. right. eauto.
  - destruct (deps (Board_ cfg)) as [e|bd] eqn:Hd.
    + eexists (Some _), None.
      split; [done|]. split; [by apply board_of_update with c|]. right. eauto.
    + exists None, (Some bd).
      split; [done|]. split; [by apply board_of_update with c|]. left.
      eauto 6.
Qed.

Lemma Reconfigure_board_fresh_or_nil_witness :
  heap (Doubles.world_of (Some Doubles.b1)) !! 0 =
    Some (Doubles.component (Some Doubles.b1)) /\
  exists r b,
    Reconfigure 0 Background Doubles.deps1 Doubles.conf_bad
      (Doubles.world_of (Some Doubles.b1)) =
      (Ret r, update (Doubles.world_of (Some Doubles.b1)) 0
                (rebind (Doubles.component (Some Doubles.b1)) b)) /\
    board_of (update (Doubles.world_of (Some Doubles.b1)) 0
                (rebind (Doubles.component (Some Doubles.b1)) b)) 0 = Some b /\
    ((r = None /\
      exists cfg bd, NativeConfig Doubles.conf_bad = inr cfg /\
                     Doubles.deps1 (Board_ cfg) = inr bd /\ b = Some bd)
     \/ (is_Some r /\ b = None)).
Proof.
  split; [reflexivity|].
  apply (Reconfigure_board_fresh_or_nil 0
           (Doubles.component (Some Doubles.b1)) Background Doubles.deps1
           Doubles.conf_bad (Doubles.world_of (Some Doubles.b1)) eq_refl).
Defined.

(** ** Validate *)

(** C10: whatever the configuration and the path, Validate returns the
    one-element list holding the empty string, and no error. *)
Theorem Validate_placeholder cfg path : Validate cfg path = ([""], None).
Proof. reflexivity. Qed.

(** ** The scenario of the specification *)

(** The pin goes high, then low; the failed rebinding leaves the component
    without a board, and the last SetPower panics on it. *)
Example scenario_run :
  Doubles.scenario Doubles.empty_world =
    (Panic,
     {| heap := [Doubles.component None];
        trace := [EvGPIOPinByName "b1" "29"; EvSet "b1" "29" true;
                  EvGPIOPinByName "b1" "29"; EvSet "b1" "29" false] |}).
Proof. vm_compute. reflexivity. Qed.

(** ** More on the pin-write primitive *)

Lemma after_nil w : after w [] = w.
Proof. destruct w. unfold after. simpl. by rewrite app_nil_r. Qed.

Lemma setPin_found_written b l pv p w :
  GPIOPinByName b (name pv) = inr p ->
  Set_ p (high pv) = None ->
  setPin (Some b) l pv w =
    (Ret None, after w [EvGPIOPinByName (board_name b) (name pv);
                        EvSet (board_name b) (name pv) (high pv)]).
Proof. intros Hl Hs. rewrite setPin_bound. simpl. by rewrite Hl, Hs. Qed.

(** X1: when the pin is found and the write succeeds, setPin returns nil
    after exactly one lookup and one write and logs nothing, whatever the
    logger, a nil one included. *)
Theorem setPin_success b l pv p w :
  GPIOPinByName b (name pv) = inr p ->
  Set_ p (high pv) = None ->
  setPin (Some b) l pv w =
    (Ret None, after w [EvGPIOPinByName (board_name b) (name pv);
                        EvSet (board_name b) (name pv) (high pv)]).
Proof. apply setPin_found_written. Qed.

Lemma setPin_success_witness :
  GPIOPinByName Doubles.b1 (name {| name := "29"; high := true |}) =
    inr Doubles.pin_ok /\
  Set_ Doubles.pin_ok (high {| name := "29"; high := true |}) = None /\
  setPin (Some Doubles.b1) None {| name := "29"; high := true |}
    Doubles.empty_world =
    (Ret None, after Doubles.empty_world
                 [EvGPIOPinByName "b1" "29"; EvSet "b1" "29" true]).
Proof.
  split; [reflexivity|]. split; [reflexivity|].
  apply (setPin_success Doubles.b1 None {| name := "29"; high := true |}
           Doubles.pin_ok Doubles.empty_world eq_refl eq_refl).
Defined.

(** X2: with a nil logger every pin failure, of the lookup or of the
    write, ends in a panic at the call of the logger: the calls made so far
    stay in the trace and no error is returned. *)
Theorem setPin_nil_logger_panics b pv err evs w :
  pin_failure b pv err evs ->
  setPin (Some b) None pv w = (Panic, after w evs).
Proof.
  intros [[Hl ->]|(p & Hl & Hs & ->)]; rewrite setPin_bound; simpl;
    rewrite Hl; [done|]. by rewrite Hs.
Qed.

Lemma setPin_nil_logger_panics_witness :
  pin_failure Doubles.bare {| name := "29"; high := false |}
    (errorString "pin not found") [EvGPIOPinByName "bare" "29"] /\
  setPin (Some Doubles.bare) None {| name := "29"; high := false |}
    Doubles.empty_world =
    (Panic, after Doubles.empty_world [EvGPIOPinByName "bare" "29"]).
Proof.
  assert (H : pin_failure Doubles.bare {| name := "29"; high := false |}
                (errorString "pin not found")
                [EvGPIOPinByName "bare" "29"]).
  { left. split; reflexivity. }
  split; [exact H|].
  apply (setPin_nil_logger_panics Doubles.bare _ _ _ Doubles.empty_world H).
Defined.

(** [setPin] only appends to the trace, for any board and logger. *)
Lemma setPin_appends b l pv w :
  exists evs, snd (setPin b l pv w) = after w evs.
Proof.
  destruct b as [bd|].
  - rewrite setPin_bound. simpl.
    destruct (GPIOPinByName bd (name pv)) as [err|p].
    + destruct l; eexists; reflexivity.
    + destruct (Set_ p (high pv)); [destruct l|]; eexists; reflexivity.
  - exists []. by rewrite setPin_nil_board, after_nil.
Qed.

(** X3: setPin never touches the heap: whatever the board, the logger and
    the pin, and however the call ends, every component is as before. *)
Theorem setPin_keeps_heap b l pv w : heap (snd (setPin b l pv w)) = heap w.
Proof. destruct (setPin_appends b l pv w) as (evs & ->). reflexivity. Qed.

(** X4: when the lookup of the pin fails, setPin writes no pin: the writes
    in the trace are those that were there before. *)
Theorem setPin_lookup_failure_no_write b l pv err w :
  GPIOPinByName b (name pv) = inl err ->
  filter is_write (trace (snd (setPin (Some b) l pv w))) =
    filter is_write (trace w).
Proof.
  intros Hl. rewrite setPin_bound. simpl. rewrite Hl.
  destruct l; simpl; rewrite filter_app; simpl; by rewrite app_nil_r.
Qed.

Lemma setPin_lookup_failure_no_write_witness :
  GPIOPinByName Doubles.bare (name {| name := "29"; high := true |}) =
    inl (errorString "pin not found") /\
  filter is_write
    (trace (snd (setPin (Some Doubles.bare) (Some Doubles.sink)
                   {| name := "29"; high := true |} Doubles.empty_world))) =
    filter is_write (trace Doubles.empty_world).
Proof.
  split; [reflexivity|].
  apply (setPin_lookup_failure_no_write Doubles.bare (Some Doubles.sink)
           {| name := "29"; high := true |} (errorString "pin not found")
           Doubles.empty_world eq_refl).
Defined.

(** ** More on SetPower *)

Lemma SetPower_cases wm ctx powerPct extra w :
  SetPower wm ctx powerPct extra w =
    match heap w !! wm with
    | Some c =>
        setPin (board c) None
          {| name := propellerPinName;
             high := float64_eqb powerPct float64_one |} w
    | None => (Panic, w)
    end.
Proof.
  destruct (heap w !! wm) as [c|] eqn:E.
  - by apply SetPower_live.
  - unfold SetPower, mbind, M_bind, bind, load. by rewrite E.
Qed.

(** X5: SetPower never returns an error.  It returns nil exactly when the
    component is bound, the board has the propeller pin and the write
    succeeds; in every other case (dead pointer, no board, pin missing,
    write refused) it panics. *)
Theorem SetPower_nil_or_panic wm ctx powerPct extra w :
  (fst (SetPower wm ctx powerPct extra w) = Ret None \/
   fst (SetPower wm ctx powerPct extra w) = Panic) /\
  (fst (SetPower wm ctx powerPct extra w) = Ret None <->
   exists c b p,
     heap w !! wm = Some c /\ board c = Some b /\
     GPIOPinByName b propellerPinName = inr p /\
     Set_ p (float64_eqb powerPct float64_one) = None).
Proof.
  rewrite SetPower_cases.
  destruct (heap w !! wm) as [c|] eqn:E.
  2: { split; [by right|]. split; [discriminate|].
       by intros (? & ? & ? & ? & _). }
  destruct (board c) as [b|] eqn:Hb.
  2: { rewrite setPin_nil_board. split; [by right|]. split; [discriminate|].
       intros (c' & b' & p' & Hc & Hb' & _). congruence. }
  rewrite setPin_bound. simpl.
  destruct (GPIOPinByName b propellerPinName) as [err|p] eqn:Hl.
  { split; [by right|]. split; [discriminate|].
    intros (c' & b' & p' & Hc & Hb' & Hp & _). congruence. }
  destruct (Set_ p (float64_eqb powerPct float64_one)) as [e|] eqn:Hs.
  - split; [by right|]. split; [discriminate|].
    intros (c' & b' & p' & Hc & Hb' & Hp & Hs'). congruence.
  - split; [by left|]. split; [|done]. intros _. by exists c, b, p.
Qed.

(** X6: SetPower leaves the heap alone and never reaches a logger; what it
    adds to the trace is nothing, or one lookup of the propeller pin, or
    that lookup followed by one write of the level [powerPct == 1]. *)
Theorem SetPower_frame wm ctx powerPct extra w :
  exists evs,
    snd (SetPower wm ctx powerPct extra w) = after w evs /\
    filter is_log evs = [] /\
    (evs = [] \/
     exists bn,
       evs = [EvGPIOPinByName bn propellerPinName] \/
       evs = [EvGPIOPinByName bn propellerPinName;
              EvSet bn propellerPinName
                (float64_eqb powerPct float64_one)]).
Proof.
  rewrite SetPower_cases.
  destruct (heap w !! wm) as [c|];
    [|exists []; rewrite after_nil; by auto].
  destruct (board c) as [b|];
    [|exists []; rewrite setPin_nil_board, after_nil; by auto].
  rewrite setPin_bound. simpl.
  destruct (GPIOPinByName b propellerPinName) as [err|p].
  - eexists. split; [reflexivity|]. split; [done|]. right. eauto.
  - destruct (Set_ p _); eexists; (split; [reflexivity|]);
      (split; [done|]); right; eauto.
Qed.

(** X7: SetPower keeps nothing between calls: on a bound component whose
    propeller pin takes both writes, two calls in a row make two lookups
    and two writes, the second with the level of the second power. *)
Theorem SetPower_twice wm c b p ctx power1 power2 extra w :
  heap w !! wm = Some c ->
  board c = Some b ->
  GPIOPinByName b propellerPinName = inr p ->
  Set_ p (float64_eqb power1 float64_one) = None ->
  Set_ p (float64_eqb power2 float64_one) = None ->
  (SetPower wm ctx power1 extra;; SetPower wm ctx power2 extra) w =
    (Ret None,
     after w [EvGPIOPinByName (board_name b) propellerPinName;
              EvSet (board_name b) propellerPinName
                (float64_eqb power1 float64_one);
              EvGPIOPinByName (board_name b) propellerPinName;
              EvSet (board_name b) propellerPinName
                (float64_eqb power2 float64_one)]).
Proof.
  intros E Hb Hl Hs1 Hs2.
  assert (Hone : forall power w',
    heap w' !! wm = Some c ->
    Set_ p (float64_eqb power float64_one) = None ->
    SetPower wm ctx power extra w' =
      (Ret None,
       after w' [EvGPIOPinByName (board_name b) propellerPinName;
                 EvSet (board_name b) propellerPinName
                   (float64_eqb power float64_one)])).
  { intros power w' E' Hs. rewrite (SetPower_live _ _ _ _ _ _ E'), Hb.
    by apply setPin_found_written with p. }
  rewrite (bind_Ret _ _ _ _ _ (Hone power1 w E Hs1)).
  rewrite Hone; [|exact E|exact Hs2]. by rewrite after_after.
Qed.

Lemma SetPower_twice_witness :
  heap (Doubles.world_of (Some Doubles.b1)) !! 0 =
    Some (Doubles.component (Some Doubles.b1)) /\
  board (Doubles.component (Some Doubles.b1)) = Some Doubles.b1 /\
  GPIOPinByName Doubles.b1 propellerPinName = inr Doubles.pin_ok /\
  Set_ Doubles.pin_ok (float64_eqb float64_one float64_one) = None /\
  Set_ Doubles.pin_ok (float64_eqb float64_zero float64_one) = None /\
  (SetPower 0 Background float64_one ∅;;
   SetPower 0 Background float64_zero ∅)
    (Doubles.world_of (Some Doubles.b1)) =
    (Ret None,
     after (Doubles.world_of (Some Doubles.b1))
       [EvGPIOPinByName "b1" "29"; EvSet "b1" "29" true;
        EvGPIOPinByName "b1" "29"; EvSet "b1" "29" false]).
Proof.
  split; [reflexivity|]. split; [reflexivity|]. split; [reflexivity|].
  split; [reflexivity|]. split; [reflexivity|].
  apply (SetPower_twice 0 (Doubles.component (Some Doubles.b1)) Doubles.b1
           Doubles.pin_ok Background float64_one float64_zero ∅
           (Doubles.world_of (Some Doubles.b1))
           eq_refl eq_refl eq_refl eq_refl eq_refl).
Defined.

(** ** More on Reconfigure *)

Lemma rebind_rebind c b b' : rebind (rebind c b) b' = rebind c b'.
Proof. reflexivity. Qed.

Lemma insert_as_alter (l : list winchmotor) i c f :
  l !! i = Some c -> <[i := f c]> l = alter f i l.
Proof.
  intros E. apply list_eq. intros j. destruct (decide (i = j)) as [<-|Hne].
  - rewrite list_lookup_insert_eq by (by eapply lookup_lt_Some).
    by rewrite list_lookup_alter_eq, E.
  - by rewrite list_lookup_insert_ne, list_lookup_alter_ne.
Qed.

Lemma alter_dead (l : list winchmotor) (i : nat) f :
  l !! i = None -> alter f i l = l.
Proof.
  intros E. apply list_eq. intros j. destruct (decide (i = j)) as [<-|Hne].
  - by rewrite list_lookup_alter_eq, E.
  - by rewrite list_lookup_alter_ne.
Qed.

Lemma Reconfigure_dead wm ctx deps conf w :
  heap w !! wm = None -> Reconfigure wm ctx deps conf w = (Panic, w).
Proof.
  intros E. unfold Reconfigure. apply bind_Panic.
  unfold set_board. apply bind_Panic. unfold load. by rewrite E.
Qed.

Lemma Reconfigure_from_any_board wm c b0 ctx deps conf w :
  heap w !! wm = Some c ->
  Reconfigure wm ctx deps conf (update w wm (rebind c b0)) =
    Reconfigure wm ctx deps conf w.
Proof.
  intros E.
  rewrite (Reconfigure_live _ _ _ _ _ _ (update_lookup _ _ _ (rebind c b0) E)).
  rewrite (Reconfigure_live _ _ _ _ _ _ E).
  destruct (NativeConfig conf) as [?|cfg];
    [|destruct (deps (Board_ cfg))]; by rewrite update_update.
Qed.

(** X8: what Reconfigure returns and the board it leaves do not depend on
    the board that was bound before: the call on a component holding any
    board [b0] ends as the call on the same component holding none. *)
Theorem Reconfigure_forgets_previous_board wm c b0 ctx deps conf w :
  heap w !! wm = Some c ->
  Reconfigure wm ctx deps conf (update w wm (rebind c b0)) =
    Reconfigure wm ctx deps conf w.
Proof. apply Reconfigure_from_any_board. Qed.

Lemma Reconfigure_forgets_previous_board_witness :
  heap (Doubles.world_of None) !! 0 = Some (Doubles.component None) /\
  Reconfigure 0 Background Doubles.deps1 (Doubles.conf_for "missing")
    (update (Doubles.world_of None) 0
       (rebind (Doubles.component None) (Some Doubles.stuck))) =
    Reconfigure 0 Background Doubles.deps1 (Doubles.conf_for "missing")
      (Doubles.world_of None).
Proof.
  split; [reflexivity|].
  apply (Reconfigure_forgets_previous_board 0 (Doubles.component None)
           (Some Doubles.stuck) Background Doubles.deps1
           (Doubles.conf_for "missing") (Doubles.world_of None) eq_refl).
Defined.

(** X9: Reconfigure is idempotent: applying the same configuration with
    the same dependencies twice returns what one application returns and
    leaves the world one application leaves. *)
Theorem Reconfigure_idempotent wm c ctx deps conf w :
  heap w !! wm = Some c ->
  (Reconfigure wm ctx deps conf;; Reconfigure wm ctx deps conf) w =
    Reconfigure wm ctx deps conf w.
Proof.
  intros E.
  assert (H : exists r b, Reconfigure wm ctx deps conf w =
                            (Ret r, update w wm (rebind c b))).
  { rewrite (Reconfigure_live _ _ _ _ _ _ E).
    destruct (NativeConfig conf) as [?|cfg]; [by eauto|].
    destruct (deps (Board_ cfg)); by eauto. }
  destruct H as (r & b & H).
  rewrite (bind_Ret _ _ _ _ _ H).
  by apply Reconfigure_from_any_board.
Qed.

Lemma Reconfigure_idempotent_witness :
  heap (Doubles.world_of None) !! 0 = Some (Doubles.component None) /\
  (Reconfigure 0 Background Doubles.deps1 (Doubles.conf_for "b1");;
   Reconfigure 0 Background Doubles.deps1 (Doubles.conf_for "b1"))
    (Doubles.world_of None) =
    Reconfigure 0 Background Doubles.deps1 (Doubles.conf_for "b1")
      (Doubles.world_of None).
Proof.
  split; [reflexivity|].
  apply (Reconfigure_idempotent 0 (Doubles.component None) Background
           Doubles.deps1 (Doubles.conf_for "b1") (Doubles.world_of None)
           eq_refl).
Defined.

(** X10: Reconfigure changes one field of one object: for some board [b],
    the heap afterwards is the heap before with the board of the object at
    [wm] set to [b] (and as before when the pointer is dead); every name,
    every logger, every other object and the trace are untouched. *)
Theorem Reconfigure_only_alters_board wm ctx deps conf w :
  exists b,
    snd (Reconfigure wm ctx deps conf w) =
      {| heap := alter (fun c => rebind c b) wm (heap w);
         trace := trace w |}.
Proof.
  destruct (heap w !! wm) as [c|] eqn:E.
  - assert (H : exists r b, Reconfigure wm ctx deps conf w =
                              (Ret r, update w wm (rebind c b))).
    { rewrite (Reconfigure_live _ _ _ _ _ _ E).
      destruct (NativeConfig conf) as [?|cfg]; [by eauto|].
      destruct (deps (Board_ cfg)); by eauto. }
    destruct H as (r & b & ->). exists b. unfold update. simpl. f_equal.
    exact (insert_as_alter _ _ _ (fun c => rebind c b) E).
  - exists None. rewrite (Reconfigure_dead _ _ _ _ _ E). simpl.
    destruct w as [h t]. simpl in *. f_equal. symmetry.
    by apply alter_dead.
Qed.

(** X11: through a dead pointer Reconfigure panics at its first statement
    and leaves the world as it was. *)
Theorem Reconfigure_dead_pointer_panics wm ctx deps conf w :
  heap w !! wm = None -> Reconfigure wm ctx deps conf w = (Panic, w).
Proof. apply Reconfigure_dead. Qed.

Lemma Reconfigure_dead_pointer_panics_witness :
  heap Doubles.empty_world !! 0 = None /\
  Reconfigure 0 Background Doubles.deps1 (Doubles.conf_for "b1")
    Doubles.empty_world = (Panic, Doubles.empty_world).
Proof.
  split; [reflexivity|].
  apply (Reconfigure_dead_pointer_panics 0 Background Doubles.deps1
           (Doubles.conf_for "b1") Doubles.empty_world eq_refl).
Defined.

(** X12: when the conversion of the configuration fails, Reconfigure
    returns the conversion error as it is, unwrapped, without consulting
    the dependencies (the outcome is the same for every [deps]), and the
    component is left without a board. *)
Theorem Reconfigure_conversion_failure wm c ctx deps conf err w :
  heap w !! wm = Some c ->
  NativeConfig conf = inl err ->
  Reconfigure wm ctx deps conf w =
    (Ret (Some err), update w wm (rebind c None)).
Proof.
  intros E Hc. by rewrite (Reconfigure_live _ _ _ _ _ _ E), Hc.
Qed.

Lemma Reconfigure_conversion_failure_witness :
  heap (Doubles.world_of (Some Doubles.b1)) !! 0 =
    Some (Doubles.component (Some Doubles.b1)) /\
  NativeConfig Doubles.conf_bad = inl (errorString "unexpected config type") /\
  Reconfigure 0 Background Doubles.deps1 Doubles.conf_bad
    (Doubles.world_of (Some Doubles.b1)) =
    (Ret (Some (errorString "unexpected config type")),
     Doubles.world_of None).
Proof.
  split; [reflexivity|]. split; [reflexivity|].
  apply (Reconfigure_conversion_failure 0
           (Doubles.component (Some Doubles.b1)) Background Doubles.deps1
           Doubles.conf_bad (errorString "unexpected config type")
           (Doubles.world_of (Some Doubles.b1)) eq_refl eq_refl).
Defined.

Lemma append_assoc (a b c : string) : (a ++ b) ++ c = a ++ b ++ c.
Proof.
  induction a as [|x a IH]; [done|].
  change (String x ((a ++ b) ++ c) = String x (a ++ b ++ c)).
  by rewrite IH.
Qed.

(** X13: the message of the error Reconfigure returns when the board does
    not resolve reads "unable to get board NAME for mybase: CAUSE", with
    the configured board name and the message of the cause. *)
Theorem Reconfigure_error_message wm c ctx deps conf cfg cause w :
  heap w !! wm = Some c ->
  NativeConfig conf = inr cfg ->
  deps (Board_ cfg) = inl cause ->
  exists e,
    fst (Reconfigure wm ctx deps conf w) = Ret (Some e) /\
    Error e =
      "unable to get board " ++ Board_ cfg ++ " for mybase: " ++ Error cause.
Proof.
  intros E Hc Hd. rewrite (Reconfigure_live _ _ _ _ _ _ E), Hc, Hd.
  eexists. split; [reflexivity|]. cbn [Error].
  by rewrite !append_assoc.
Qed.

Lemma Reconfigure_error_message_witness :
  heap (Doubles.world_of None) !! 0 = Some (Doubles.component None) /\
  NativeConfig (Doubles.conf_for "missing") = inr {| Board_ := "missing" |} /\
  Doubles.deps1 "missing" = inl (errorString "resource not found") /\
  exists e,
    fst (Reconfigure 0 Background Doubles.deps1 (Doubles.conf_for "missing")
           (Doubles.world_of None)) = Ret (Some e) /\
    Error e = "unable to get board missing for mybase: resource not found".
Proof.
  split; [reflexivity|]. split; [reflexivity|]. split; [reflexivity|].
  apply (Reconfigure_error_message 0 (Doubles.component None) Background
           Doubles.deps1 (Doubles.conf_for "missing")
           {| Board_ := "missing" |} (errorString "resource not found")
           (Doubles.world_of None) eq_refl eq_refl eq_refl).
Defined.

(** ** The operations together *)

(** X14: after a Reconfigure that returned an error, be it from the
    conversion or from the resolution, SetPower on the same component
    panics without touching a pin, also when a board was bound before. *)
Theorem SetPower_after_failed_Reconfigure wm c ctx deps conf e w' powerPct
  extra w :
  heap w !! wm = Some c ->
  Reconfigure wm ctx deps conf w = (Ret (Some e), w') ->
  (Reconfigure wm ctx deps conf;; SetPower wm ctx powerPct extra) w =
    (Panic, update w wm (rebind c None)).
Proof.
  intros E H. rewrite (bind_Ret _ _ _ _ _ H).
  rewrite (Reconfigure_live _ _ _ _ _ _ E) in H.
  assert (Hw : w' = update w wm (rebind c None)).
  { destruct (NativeConfig conf) as [?|cfg]; [congruence|].
    destruct (deps (Board_ cfg)); congruence. }
  subst w'.
  rewrite (SetPower_live _ _ _ _ _ _ (update_lookup _ _ _ (rebind c None) E)).
  apply setPin_nil_board.
Qed.

Lemma SetPower_after_failed_Reconfigure_witness :
  heap (Doubles.world_of (Some Doubles.b1)) !! 0 =
    Some (Doubles.component (Some Doubles.b1)) /\
  Reconfigure 0 Background Doubles.deps1 (Doubles.conf_for "missing")
    (Doubles.world_of (Some Doubles.b1)) =
    (Ret (Some (withMessage (errorString "resource not found")
            "unable to get board missing for mybase")),
     Doubles.world_of None) /\
  (Reconfigure 0 Background Doubles.deps1 (Doubles.conf_for "missing");;
   SetPower 0 Background float64_one ∅)
    (Doubles.world_of (Some Doubles.b1)) =
    (Panic, Doubles.world_of None).
Proof.
  split; [reflexivity|]. split; [reflexivity|].
  apply (SetPower_after_failed_Reconfigure 0
           (Doubles.component (Some Doubles.b1)) Background Doubles.deps1
           (Doubles.conf_for "missing") _ (Doubles.world_of None)
           float64_one ∅ (Doubles.world_of (Some Doubles.b1))
           eq_refl eq_refl).
Defined.

Lemma newWinchMotor_run ctx deps conf l w :
  newWinchMotor ctx deps conf l w =
    (Ret (length (heap w), None),
     {| heap := heap w ++
                [{| Named := ResourceName conf; board := None; logger := l |}];
        trace := trace w |}).
Proof. reflexivity. Qed.

Lemma update_last (h : list winchmotor) t c c' :
  update {| heap := h ++ [c]; trace := t |} (length h) c' =
    {| heap := h ++ [c']; trace := t |}.
Proof.
  unfold update. simpl. f_equal.
  replace (length h) with (length h + 0) by lia.
  by rewrite insert_app_r.
Qed.

(** X15: a component that is constructed, configured with a board that
    resolves and then powered returns nil when the board has the propeller
    pin and the write succeeds: the heap gains the bound component and the
    trace one lookup and one write of the level [powerPct == 1]. *)
Theorem start_and_power_succeeds ctx deps conf cfg b p l powerPct extra w :
  NativeConfig conf = inr cfg ->
  deps (Board_ cfg) = inr b ->
  GPIOPinByName b propellerPinName = inr p ->
  Set_ p (float64_eqb powerPct float64_one) = None ->
  start_and_power ctx deps conf l powerPct extra w =
    (Ret None,
     {| heap := heap w ++
                [{| Named := ResourceName conf; board := Some b;
                    logger := l |}];
        trace := trace w ++
                 [EvGPIOPinByName (board_name b) propellerPinName;
                  EvSet (board_name b) propellerPinName
                    (float64_eqb powerPct float64_one)] |}).
Proof.
  intros Hc Hd Hl Hs. unfold start_and_power.
  rewrite (bind_Ret _ _ _ _ _ (newWinchMotor_run _ _ _ _ _)).
  set (c0 := {| Named := ResourceName conf; board := None; logger := l |}).
  assert (E : heap {| heap := heap w ++ [c0]; trace := trace w |}
                !! length (heap w) = Some c0).
  { simpl. by apply list_lookup_middle. }
  pose proof (Reconfigure_live _ _ ctx deps conf _ E) as HR.
  rewrite Hc, Hd, update_last in HR.
  rewrite (bind_Ret _ _ _ _ _ HR).
  assert (E' : heap {| heap := heap w ++ [rebind c0 (Some b)];
                       trace := trace w |}
                 !! length (heap w) = Some (rebind c0 (Some b))).
  { simpl. by apply list_lookup_middle. }
  rewrite (SetPower_live _ _ _ _ _ _ E'). simpl.
  by rewrite (setPin_found_written b None
                {| name := propellerPinName;
                   high := float64_eqb powerPct float64_one |} p _ Hl Hs).
Qed.

Lemma start_and_power_succeeds_witness :
  NativeConfig (Doubles.conf_for "b1") = inr {| Board_ := "b1" |} /\
  Doubles.deps1 "b1" = inr Doubles.b1 /\
  GPIOPinByName Doubles.b1 propellerPinName = inr Doubles.pin_ok /\
  Set_ Doubles.pin_ok (float64_eqb float64_one float64_one) = None /\
  start_and_power Background Doubles.deps1 (Doubles.conf_for "b1")
    (Some Doubles.sink) float64_one ∅ Doubles.empty_world =
    (Ret None,
     {| heap := [Doubles.component (Some Doubles.b1)];
        trace := [EvGPIOPinByName "b1" "29"; EvSet "b1" "29" true] |}).
Proof.
  split; [reflexivity|]. split; [reflexivity|]. split; [reflexivity|].
  split; [reflexivity|].
  apply (start_and_power_succeeds Background Doubles.deps1
           (Doubles.conf_for "b1") {| Board_ := "b1" |} Doubles.b1
           Doubles.pin_ok (Some Doubles.sink) float64_one ∅
           Doubles.empty_world eq_refl eq_refl eq_refl eq_refl).
Defined.

(** X16: a component that is powered right after its construction panics,
    for every power and whatever the dependencies hold: the constructor
    binds no board.  The heap gains the unbound component and the trace
    nothing. *)
Theorem construct_and_power_panics ctx deps conf l powerPct extra w :
  construct_and_power ctx deps conf l powerPct extra w =
    (Panic,
     {| heap := heap w ++
                [{| Named := ResourceName conf; board := None;
                    logger := l |}];
        trace := trace w |}).
Proof.
  unfold construct_and_power.
  rewrite (bind_Ret _ _ _ _ _ (newWinchMotor_run _ _ _ _ _)).
  rewrite SetPower_cases. simpl.
  rewrite list_lookup_middle by reflexivity. simpl.
  apply setPin_nil_board.
Qed.

(** X17: two components constructed one after the other are two objects:
    configuring the first binds its board and leaves the second without
    one, and nothing reaches the collaborators. *)
Theorem two_components_do_not_alias ctx deps conf1 conf2 cfg b l1 l2 w :
  NativeConfig conf1 = inr cfg ->
  deps (Board_ cfg) = inr b ->
  exists w',
    two_components ctx deps conf1 conf2 l1 l2 w =
      (Ret (length (heap w), S (length (heap w)), None), w') /\
    board_of w' (length (heap w)) = Some (Some b) /\
    board_of w' (S (length (heap w))) = Some None /\
    trace w' = trace w.
Proof.
  intros Hc Hd. unfold two_components.
  rewrite (bind_Ret _ _ _ _ _ (newWinchMotor_run _ _ _ _ _)).
  rewrite (bind_Ret _ _ _ _ _ (newWinchMotor_run _ _ _ _ _)).
  cbn [heap trace].
  set (c1 := {| Named := ResourceName conf1; board := None; logger := l1 |}).
  set (c2 := {| Named := ResourceName conf2; board := None; logger := l2 |}).
  set (w2 := {| heap := (heap w ++ [c1]) ++ [c2]; trace := trace w |}).
  assert (E : heap w2 !! length (heap w) = Some c1).
  { unfold w2. cbn [heap]. rewrite <- app_assoc. by apply list_lookup_middle. }
  pose proof (Reconfigure_live _ _ ctx deps conf1 _ E) as HR.
  rewrite Hc, Hd in HR.
  replace (length (heap w ++ [c1])) with (S (length (heap w)))
    by (rewrite length_app; simpl; lia).
  rewrite (bind_Ret _ _ _ _ _ HR).
  eexists. split; [reflexivity|].
  split; [by apply board_of_update with c1|]. split; [|reflexivity].
  unfold board_of, update. cbn [heap].
  rewrite list_lookup_insert_ne by lia.
  unfold w2. cbn [heap].
  rewrite (list_lookup_middle (heap w ++ [c1]) [] c2 (S (length (heap w))));
    [done|]. rewrite length_app. simpl. lia.
Qed.

Lemma two_components_do_not_alias_witness :
  NativeConfig (Doubles.conf_for "b1") = inr {| Board_ := "b1" |} /\
  Doubles.deps1 "b1" = inr Doubles.b1 /\
  exists w',
    two_components Background Doubles.deps1 (Doubles.conf_for "b1")
      Doubles.conf_bad None None Doubles.empty_world =
      (Ret (0, 1, None), w') /\
    board_of w' 0 = Some (Some Doubles.b1) /\
    board_of w' 1 = Some None /\
    trace w' = [].
Proof.
  split; [reflexivity|]. split; [reflexivity|].
  apply (two_components_do_not_alias Background Doubles.deps1
           (Doubles.conf_for "b1") Doubles.conf_bad {| Board_ := "b1" |}
           Doubles.b1 None None Doubles.empty_world eq_refl eq_refl).
Defined.

(** ** The threshold of SetPower, by value *)

Lemma digits2_pos_pow2 (m : positive) :
  forall k : Z, (0 <= k)%Z -> Z.pos m = (2 ^ k)%Z ->
  Z.pos (digits2_pos m) = (k + 1)%Z.
Proof.
  induction m as [m IH|m IH|]; intros k Hk Hm.
  - exfalso. destruct (Z.eq_dec k 0%Z) as [->|Hne]; [simpl in Hm; lia|].
    replace k with (Z.succ (k - 1))%Z in Hm by lia.
    rewrite Z.pow_succ_r in Hm by lia. lia.
  - destruct (Z.eq_dec k 0%Z) as [->|Hne]; [simpl in Hm; lia|].
    replace k with (Z.succ (k - 1))%Z in Hm by lia.
    rewrite Z.pow_succ_r in Hm by lia.
    assert (Hm' : Z.pos m = (2 ^ (k - 1))%Z) by lia.
    specialize (IH (k - 1)%Z ltac:(lia) Hm').
    cbn [digits2_pos]. rewrite Pos2Z.inj_succ. lia.
  - destruct (Z.eq_dec k 0%Z) as [->|Hne]; [reflexivity|]. exfalso.
    replace k with (Z.succ (k - 1))%Z in Hm by lia.
    rewrite Z.pow_succ_r in Hm by lia.
    assert (0 < 2 ^ (k - 1))%Z by (apply Z.pow_pos_nonneg; lia). lia.
Qed.

(** X18: for a binary64 datum the comparison [powerPct == 1] of SetPower
    holds exactly when the float is positive and finite with value one;
    on a pair of mantissa and exponent that is not a binary64 datum the
    two can differ. *)
Theorem float64_eqb_one_by_value (p : float64) :
  is_float64 p ->
  (float64_eqb p float64_one = true <-> value_is_one p).
Proof.
  intros Hv. rewrite float64_eqb_one. split.
  - intros ->. split; [lia|reflexivity].
  - destruct p as [s|s| |s m e]; try done.
    destruct s; [done|]. intros [He Hm].
    unfold is_float64, valid_binary, bounded in Hv.
    apply andb_prop in Hv as [Hc _].
    unfold canonical_mantissa, fexp, emin in Hc.
    rewrite (digits2_pos_pow2 m (- e) ltac:(lia) Hm) in Hc.
    apply Z.eqb_eq in Hc.
    assert (e = (-52)%Z) as -> by lia.
    unfold float64_one. f_equal. simpl in Hm. by injection Hm.
Qed.

Lemma float64_eqb_one_by_value_witness :
  is_float64 float64_one /\
  (float64_eqb float64_one float64_one = true <-> value_is_one float64_one).
Proof.
  split; [exact float64_one_valid|].
  apply (float64_eqb_one_by_value float64_one float64_one_valid).
Defined.
